(** * ProjetoFinal: traffic light on a Raspberry Pi Pico

    Shallow embedding of [src/ProjetoFinal.c].  The program keeps one
    global, [estado], and talks to its peripherals (GPIO, PWM, the OLED
    display, the LED matrix, the clock) only through calls that return
    nothing it looks at.  Every such call is recorded, in program order,
    in a log of commands; the peripherals' state is obtained by replaying
    the log on a small device model. *)

From Equations Require Import Equations.
From Stdlib Require Import String ZArith List Bool Lia.
Import ListNotations.
Local Open Scope Z_scope.

(** ** Pins and constants ([#define]s of the source) *)

Definition LED_R : Z := 13.
Definition LED_G : Z := 11.
Definition LED_B : Z := 12.
Definition BUZZER : Z := 21.
Definition DISPLAY_ADDR : Z := 60. (* 0x3C *)
Definition PIN_SDA : Z := 14.
Definition PIN_SCL : Z := 15.

(** [int] is a 32-bit two's complement integer. *)
Definition INT_MAX : Z := 2 ^ 31 - 1.
Definition wrap_int (z : Z) : Z := (z + 2 ^ 31) mod 2 ^ 32 - 2 ^ 31.

(** ** Commands issued to the collaborators *)

Inductive gpio_function := GPIO_FUNC_SIO | GPIO_FUNC_PWM | GPIO_FUNC_I2C.

Inductive command :=
| GpioInit (pin : Z)
| GpioSetDir (pin : Z) (out : bool)
| GpioPullUp (pin : Z)
| GpioPut (pin : Z) (value : bool)
| GpioSetFunction (pin : Z) (fn : gpio_function)
| PwmInit (pin : Z) (freq wrap : Z) (start : bool)
| PwmSetGpioLevel (pin : Z) (level : Z)
| I2cInit (baud : Z)
| Ssd1306Init (addr : Z)
| Ssd1306Config
| Ssd1306Fill (value : bool)
| Ssd1306DrawString (text : string) (x y : Z)
| Ssd1306SendData
| PrintNum (digit : Z)
| ClearLeds
| SleepMs (ms : Z)
| PioAddProgram
| PioMatrizProgramInit
| StdioInitAll
| Printf (estado : Z).

(** ** Program state and the monad that threads it *)

Record world := mkWorld {
  estado : Z;            (* volatile int estado *)
  log : list command     (* commands issued so far, oldest first *)
}.

Definition M (A : Type) : Type := world -> A * world.

Definition ret {A} (a : A) : M A := fun w => (a, w).
Definition bind {A B} (m : M A) (k : A -> M B) : M B :=
  fun w => let (a, w') := m w in k a w'.

Notation "x <- m ;; k" := (bind m (fun x => k))
  (at level 61, m at next level, right associativity).
Notation "m ;; k" := (bind m (fun _ => k))
  (at level 61, right associativity).

Definition read_estado : M Z := fun w => (estado w, w).
Definition write_estado (v : Z) : M unit :=
  fun w => (tt, mkWorld v (log w)).
Definition issue (c : command) : M unit :=
  fun w => (tt, mkWorld (estado w) (log w ++ [c])).

Definition exec {A} (m : M A) (w : world) : world := snd (m w).
Definition result {A} (m : M A) (w : world) : A := fst (m w).

(** The SDK and driver entry points the source calls. *)
Definition gpio_init pin := issue (GpioInit pin).
Definition gpio_set_dir pin out := issue (GpioSetDir pin out).
Definition gpio_pull_up pin := issue (GpioPullUp pin).
Definition gpio_put pin v := issue (GpioPut pin v).
Definition gpio_set_function pin fn := issue (GpioSetFunction pin fn).
Definition pwm_init pin freq wrap start := issue (PwmInit pin freq wrap start).
Definition pwm_set_gpio_level pin level := issue (PwmSetGpioLevel pin level).
Definition i2c_init baud := issue (I2cInit baud).
Definition ssd1306_init addr := issue (Ssd1306Init addr).
Definition ssd1306_config := issue Ssd1306Config.
Definition ssd1306_fill v := issue (Ssd1306Fill v).
Definition ssd1306_draw_string text x y := issue (Ssd1306DrawString text x y).
Definition ssd1306_send_data := issue Ssd1306SendData.
Definition print_num i := issue (PrintNum i).
Definition clear_leds := issue ClearLeds.
Definition sleep_ms ms := issue (SleepMs ms).
Definition pio_add_program := issue PioAddProgram.
Definition pio_matriz_program_init := issue PioMatrizProgramInit.
Definition stdio_init_all := issue StdioInitAll.
Definition printf_estado e := issue (Printf e).

(** ** The source functions *)

(** [set_pwm_pin]: the clock divider is derived from [freq] and the wrap
    is the constant 10000; the slice is started and the level set. *)
Definition set_pwm_pin (pin freq duty_c : Z) : M unit :=
  gpio_set_function pin GPIO_FUNC_PWM ;;
  pwm_init pin freq 10000 true ;;
  pwm_set_gpio_level pin duty_c.

Definition disable_pwm (pin : Z) : M unit :=
  gpio_set_function pin GPIO_FUNC_SIO ;;
  gpio_put pin false.

(** [for (int i = d; i > 0; i--) { print_num(i, pio, sm); sleep_ms(1000); }]
    The loop runs as long as its test holds; it is defined by recursion
    on the counter, with the decrement taken in [int]. *)
Equations? countdown (i : Z) : M unit by wf (Z.to_nat i) lt :=
  countdown i with Z_lt_dec 0 i => {
    | left _ => print_num i ;; sleep_ms 1000 ;; countdown (wrap_int (i - 1))
    | right _ => ret tt }.
Proof.
  unfold wrap_int.
  assert (H : (i - 1 + 2 ^ 31) mod 2 ^ 32 <= i - 1 + 2 ^ 31)
    by (apply Z.mod_le; lia).
  lia.
Qed.

Definition controlar_semaforo : M bool :=
  e <- read_estado ;;
  match e with
  | 0 =>
      gpio_put LED_R false ;;
      gpio_put LED_G false ;;
      gpio_put LED_B false ;;
      disable_pwm BUZZER ;;
      gpio_put LED_R true ;;
      ssd1306_fill false ;;
      ssd1306_draw_string "Proibido a" 5 20 ;;
      ssd1306_draw_string "passagem" 5 40 ;;
      ssd1306_send_data ;;
      countdown 3 ;;
      clear_leds ;;
      write_estado 1 ;;
      ret true
  | 1 =>
      gpio_put LED_R true ;;
      gpio_put LED_G true ;;
      gpio_put LED_B false ;;
      ssd1306_fill false ;;
      ssd1306_draw_string "Atencao!" 5 20 ;;
      ssd1306_send_data ;;
      countdown 3 ;;
      clear_leds ;;
      write_estado 2 ;;
      ret true
  | 2 =>
      gpio_put LED_R false ;;
      gpio_put LED_G true ;;
      gpio_put LED_B false ;;
      set_pwm_pin BUZZER 300 300 ;;
      ssd1306_fill false ;;
      ssd1306_draw_string "Permitido a" 5 20 ;;
      ssd1306_draw_string "passagem" 5 40 ;;
      ssd1306_send_data ;;
      countdown 6 ;;
      clear_leds ;;
      write_estado 0 ;;
      ret true
  | _ => ret false
  end.

Definition configurar_hardware : M unit :=
  gpio_init LED_R ;;
  gpio_set_dir LED_R true ;;
  gpio_init LED_G ;;
  gpio_set_dir LED_G true ;;
  gpio_init LED_B ;;
  gpio_set_dir LED_B true ;;
  gpio_init BUZZER ;;
  gpio_set_dir BUZZER true ;;
  i2c_init (400 * 1000) ;;
  gpio_set_function PIN_SDA GPIO_FUNC_I2C ;;
  gpio_pull_up PIN_SDA ;;
  gpio_set_function PIN_SCL GPIO_FUNC_I2C ;;
  gpio_pull_up PIN_SCL ;;
  ssd1306_init DISPLAY_ADDR ;;
  ssd1306_config ;;
  ssd1306_fill false ;;
  ssd1306_send_data.

(** *** [main]

    [main] does not return in general, so it is given as a transition
    function over its program points; [None] means the process has
    reached [return 0]. *)

Inductive main_pc :=
| AtBoot        (* lines 199-204: PIO program, stdio, configurar_hardware *)
| AtFirstCall   (* line 207: controlar_semaforo(NULL) *)
| AtWhile       (* line 210: while (true) *)
| AtPrintf      (* line 211 *)
| AtSleep       (* line 212 *)
| AtCall        (* line 215: controlar_semaforo(NULL) *)
| AtReturn.     (* line 218: return 0 *)

Definition main_boot : M unit :=
  pio_add_program ;;
  pio_matriz_program_init ;;
  stdio_init_all ;;
  configurar_hardware.

Definition main_status_line : M unit :=
  e <- read_estado ;; printf_estado e.

Definition main_step (c : main_pc * world) : option (main_pc * world) :=
  let (pc, w) := c in
  match pc with
  | AtBoot => Some (AtFirstCall, exec main_boot w)
  | AtFirstCall => Some (AtWhile, exec controlar_semaforo w)
  | AtWhile => if true then Some (AtPrintf, w) else Some (AtReturn, w)
  | AtPrintf => Some (AtSleep, exec main_status_line w)
  | AtSleep => Some (AtCall, exec (sleep_ms 1000) w)
  | AtCall => Some (AtWhile, exec controlar_semaforo w)
  | AtReturn => None
  end.

Fixpoint main_run (n : nat) (c : main_pc * world) : option (main_pc * world) :=
  match n with
  | O => Some c
  | S k => match main_run k c with
           | Some c' => main_step c'
           | None => None
           end
  end.

(** Power-on: [estado = 0], nothing issued yet. *)
Definition w0 : world := mkWorld 0 [].
Definition main_start : main_pc * world := (AtBoot, w0).

(** ** Device model: what the commands do to the pins *)

Record pins := mkPins {
  sio_out : Z -> bool;              (* output latch driven through SIO *)
  pin_func : Z -> gpio_function;    (* function selected for the pin *)
  pwm_enabled : Z -> bool;          (* PWM slice of the pin running *)
  pwm_level : Z -> Z                (* PWM compare level of the pin *)
}.

Definition upd {A} (f : Z -> A) (p : Z) (v : A) : Z -> A :=
  fun q => if q =? p then v else f q.

(** [gpio_init] selects SIO and clears the output latch (SDK contract);
    the display, matrix, clock and console commands leave the pins alone. *)
Definition apply_command (hw : pins) (c : command) : pins :=
  match c with
  | GpioInit p =>
      mkPins (upd (sio_out hw) p false) (upd (pin_func hw) p GPIO_FUNC_SIO)
             (pwm_enabled hw) (pwm_level hw)
  | GpioPut p v =>
      mkPins (upd (sio_out hw) p v) (pin_func hw) (pwm_enabled hw) (pwm_level hw)
  | GpioSetFunction p fn =>
      mkPins (sio_out hw) (upd (pin_func hw) p fn) (pwm_enabled hw) (pwm_level hw)
  | PwmInit p _ _ start =>
      mkPins (sio_out hw) (pin_func hw) (upd (pwm_enabled hw) p start) (pwm_level hw)
  | PwmSetGpioLevel p l =>
      mkPins (sio_out hw) (pin_func hw) (pwm_enabled hw) (upd (pwm_level hw) p l)
  | _ => hw
  end.

Definition replay (hw : pins) (cs : list command) : pins :=
  fold_left apply_command cs hw.

(** All pins low, SIO selected, no PWM. *)
Definition pins_reset : pins :=
  mkPins (fun _ => false) (fun _ => GPIO_FUNC_SIO) (fun _ => false) (fun _ => 0).

(** The three indicator channels, as (red, green, blue). *)
Definition indicator (hw : pins) : bool * bool * bool :=
  (sio_out hw LED_R, sio_out hw LED_G, sio_out hw LED_B).

(** The buzzer pin carries a signal when it is under PWM with the slice
    running and a non-zero level, or when it is under SIO with the latch
    high. *)
Definition buzzer_on (hw : pins) : bool :=
  match pin_func hw BUZZER with
  | GPIO_FUNC_PWM => pwm_enabled hw BUZZER && (0 <? pwm_level hw BUZZER)
  | GPIO_FUNC_SIO => sio_out hw BUZZER
  | GPIO_FUNC_I2C => false
  end.

(** ** Phases, calls and states *)

Definition STOP : Z := 0.
Definition CAUTION : Z := 1.
Definition GO : Z := 2.

Definition next_phase (e : Z) : Z :=
  if e =? STOP then CAUTION else if e =? CAUTION then GO else STOP.

Definition indicator_pattern (e : Z) : bool * bool * bool :=
  if e =? STOP then (true, false, false)
  else if e =? CAUTION then (true, true, false)
  else (false, true, false).

(** The world after [n] successive calls of [controlar_semaforo]. *)
Definition after_calls (n : nat) (w : world) : world :=
  Nat.iter n (exec controlar_semaforo) w.

(** The commands one call issues when it is entered with [estado = e]. *)
Definition phase_commands (e : Z) : list command :=
  log (exec controlar_semaforo (mkWorld e [])).

(** Number of leading commands of a branch that drive the indicator and
    the buzzer, before the branch turns to the display. *)
Definition setup_length (e : Z) : nat :=
  if e =? STOP then 6%nat else if e =? CAUTION then 3%nat
  else if e =? GO then 6%nat else 0%nat.

(** The phase that call number [n + 1] runs, and the hardware state [k]
    commands into that call, from power-on pins [hw0]. *)
Definition running_phase (n : nat) : Z := estado (after_calls n w0).
Definition pins_at (hw0 : pins) (n k : nat) : pins :=
  replay hw0 (log (after_calls n w0)
              ++ firstn k (phase_commands (running_phase n))).

Definition is_render (c : command) : bool :=
  match c with PrintNum _ => true | _ => false end.
Definition is_wait (c : command) : bool :=
  match c with SleepMs ms => ms =? 1000 | _ => false end.
Definition is_status_line (c : command) : bool :=
  match c with Printf _ => true | _ => false end.
Definition count (p : command -> bool) (cs : list command) : nat :=
  length (filter p cs).

(** ** Vocabulary of the statements *)

(** The digits [n, n-1, ..., 1]. *)
Fixpoint digits_down (n : nat) : list Z :=
  match n with
  | O => []
  | S k => Z.of_nat (S k) :: digits_down k
  end.

(** One render-then-wait step per digit. *)
Definition ticks (ds : list Z) : list command :=
  flat_map (fun d => [PrintNum d; SleepMs 1000]) ds.

(** An action is [framed] when what it returns, the [estado] it leaves
    and the commands it issues do not depend on the log it starts from,
    and it only appends to that log. *)
Definition framed {A} (m : M A) : Prop :=
  forall e l,
    m (mkWorld e l) =
    (fst (m (mkWorld e [])),
     mkWorld (estado (snd (m (mkWorld e []))))
             (l ++ log (snd (m (mkWorld e []))))).

(** The digits a command sequence renders, in order. *)
Definition rendered (cs : list command) : list Z :=
  flat_map (fun c => match c with PrintNum d => [d] | _ => [] end) cs.

(** Commands that do not reach the GPIO or PWM blocks. *)
Definition passive (c : command) : bool :=
  match c with
  | GpioInit _ | GpioPut _ _ | GpioSetFunction _ _
  | PwmInit _ _ _ _ | PwmSetGpioLevel _ _ => false
  | _ => true
  end.

(** The part of a branch that sets the indicator and the buzzer, and the
    display, countdown and matrix-clear part that follows it. *)
Definition setup_commands (e : Z) : list command :=
  firstn (setup_length e) (phase_commands e).
Definition body_commands (e : Z) : list command :=
  skipn (setup_length e) (phase_commands e).

(** All three indicator channels low and the buzzer disabled
    ([disable_pwm] spelled out). *)
Definition deactivate_all : list command :=
  [GpioPut LED_R false; GpioPut LED_G false; GpioPut LED_B false;
   GpioSetFunction BUZZER GPIO_FUNC_SIO; GpioPut BUZZER false].

(** A branch deactivates first when its commands start with
    [deactivate_all]. *)
Definition deactivates_first (e : Z) : Prop :=
  exists rest, phase_commands e = deactivate_all ++ rest.

(** C3 read over every state: at each point of each call, the buzzer
    sounds exactly when the call runs GO. *)
Definition buzzer_tracks_phase (hw0 : pins) : Prop :=
  forall n k,
    (k <= length (phase_commands (running_phase n)))%nat ->
    buzzer_on (pins_at hw0 n k) = (running_phase n =? GO).

(** The pin a command addresses, if any. *)
Definition command_pin (c : command) : option Z :=
  match c with
  | GpioInit p | GpioSetDir p _ | GpioPullUp p | GpioPut p _
  | GpioSetFunction p _ | PwmInit p _ _ _ | PwmSetGpioLevel p _ => Some p
  | _ => None
  end.

Definition targets_buzzer (c : command) : bool :=
  match command_pin c with
  | Some p => p =? BUZZER
  | None => false
  end.

Definition spares_buzzer (c : command) : bool := negb (targets_buzzer c).

Definition raises_blue (c : command) : bool :=
  match c with
  | GpioPut p true => p =? LED_B
  | _ => false
  end.

Definition keeps_blue_low (c : command) : bool := negb (raises_blue c).

(** One pass through the body of [while (true)]. *)
Definition loop_iteration (w : world) : world :=
  exec controlar_semaforo (exec (sleep_ms 1000) (exec main_status_line w)).

(** The world when the loop test is reached for the [k + 1]-th time:
    after the boot, the first call and [k] passes through the body. *)
Fixpoint main_world (k : nat) : world :=
  match k with
  | O => exec controlar_semaforo (exec main_boot w0)
  | S k' => loop_iteration (main_world k')
  end.

(** What one pass issues when entered with [estado = e]. *)
Definition iteration_commands (e : Z) : list command :=
  Printf e :: SleepMs 1000 :: phase_commands e.


Definition is_phase_end (c : command) : bool :=
  match c with ClearLeds => true | _ => false end.

(** ** Vocabulary for the remaining functions *)

(** The commands an action issues when run from power-on. *)
Definition issued {A} (m : M A) : list command := log (exec m w0).

(** [unsigned int] is 32 bits wide; [set_pwm_pin] computes the divisor of
    its clock divider, [freq * 10000], in that type (line 56). *)
Definition UINT_MAX : Z := 2 ^ 32 - 1.
Definition clkdiv_denominator (freq : Z) : Z := (freq * 10000) mod 2 ^ 32.

(** The pins [configurar_hardware] sets up. *)
Definition configured_pins : list Z :=
  [LED_R; LED_G; LED_B; BUZZER; PIN_SDA; PIN_SCL].

Definition mem_pin (p : Z) (ps : list Z) : bool := existsb (Z.eqb p) ps.

(** The commands of [main]'s boot, and those that follow it up to the
    [k + 1]-th arrival at the loop test. *)
Definition boot_commands : list command := issued main_boot.
Fixpoint run_commands (k : nat) : list command :=
  match k with
  | O => phase_commands 0
  | S k' => run_commands k' ++ iteration_commands (estado (main_world k'))
  end.

(** The last command sent to the LED matrix, if any. *)
Definition matrix_step (m : option command) (c : command) : option command :=
  match c with
  | PrintNum _ | ClearLeds => Some c
  | _ => m
  end.
Definition last_matrix_command (cs : list command) : option command :=
  fold_left matrix_step cs None.

Definition digit_in_range (d : Z) : bool := (1 <=? d) && (d <=? 6).

Definition addresses_output_pin (c : command) : bool :=
  match command_pin c with
  | Some p => mem_pin p [LED_R; LED_G; LED_B; BUZZER]
  | None => true
  end.

(** *** Order of use of the peripherals

    A record of what has been brought up so far, and the check that a
    command only uses what is up: [gpio_put] needs the pin initialised
    and made an output; re-muxing a pin to SIO or PWM and the PWM calls
    need the pin initialised; [ssd1306_init] needs the I2C block up and
    both bus pins muxed to I2C, [ssd1306_config] needs [ssd1306_init],
    and fill, draw and send need [ssd1306_config]; the matrix program is
    initialised after it is loaded, and [print_num] and [clear_leds] need
    it initialised; [printf] needs [stdio_init_all]. *)
Record readiness := mkReady {
  inited : list Z;
  outputs : list Z;
  i2c_pins : list Z;
  i2c_up : bool;
  display_inited : bool;
  display_up : bool;
  pio_loaded : bool;
  matrix_up : bool;
  stdio_up : bool
}.

Definition nothing_ready : readiness :=
  mkReady [] [] [] false false false false false false.

Definition require (b : bool) (r : readiness) : option readiness :=
  if b then Some r else None.

Definition protocol_step (r : readiness) (c : command) : option readiness :=
  let '(mkReady ini outs i2cp i2c dini dup pio mat std) := r in
  match c with
  | GpioInit p => Some (mkReady (p :: ini) outs i2cp i2c dini dup pio mat std)
  | GpioSetDir p true =>
      require (mem_pin p ini)
        (mkReady ini (p :: outs) i2cp i2c dini dup pio mat std)
  | GpioSetDir _ false => Some r
  | GpioPullUp _ => Some r
  | GpioPut p _ => require (mem_pin p outs) r
  | GpioSetFunction p GPIO_FUNC_I2C =>
      Some (mkReady ini outs (p :: i2cp) i2c dini dup pio mat std)
  | GpioSetFunction p _ => require (mem_pin p ini) r
  | PwmInit p _ _ _ => require (mem_pin p ini) r
  | PwmSetGpioLevel p _ => require (mem_pin p ini) r
  | I2cInit _ => Some (mkReady ini outs i2cp true dini dup pio mat std)
  | Ssd1306Init _ =>
      require (i2c && mem_pin PIN_SDA i2cp && mem_pin PIN_SCL i2cp)
        (mkReady ini outs i2cp i2c true dup pio mat std)
  | Ssd1306Config =>
      require dini (mkReady ini outs i2cp i2c dini true pio mat std)
  | Ssd1306Fill _ | Ssd1306DrawString _ _ _ | Ssd1306SendData =>
      require dup r
  | PioAddProgram => Some (mkReady ini outs i2cp i2c dini dup true mat std)
  | PioMatrizProgramInit =>
      require pio (mkReady ini outs i2cp i2c dini dup pio true std)
  | PrintNum _ | ClearLeds => require mat r
  | StdioInitAll => Some (mkReady ini outs i2cp i2c dini dup pio mat true)
  | Printf _ => require std r
  | SleepMs _ => Some r
  end.

Fixpoint protocol_run (r : readiness) (cs : list command) : option readiness :=
  match cs with
  | [] => Some r
  | c :: cs' =>
      match protocol_step r c with
      | Some r' => protocol_run r' cs'
      | None => None
      end
  end.

(** What is up once the boot has run. *)
Definition booted : readiness :=
  match protocol_run nothing_ready boot_commands with
  | Some r => r
  | None => nothing_ready
  end.

(** The indicator with its three channels off, and what it is to show
    the pattern of one of the three phases. *)
Definition dark : bool * bool * bool := (false, false, false).
Definition shows_phase_pattern (i : bool * bool * bool) : Prop :=
  i = indicator_pattern STOP \/ i = indicator_pattern CAUTION
  \/ i = indicator_pattern GO.

(** C9 read over every state: at each point of each call the indicator
    shows the pattern of one of the three phases. *)
Definition indicator_tracks_patterns (hw0 : pins) : Prop :=
  forall n k,
    (k <= length (phase_commands (running_phase n)))%nat ->
    shows_phase_pattern (indicator (pins_at hw0 n k)).

(** * Properties *)

Lemma wrap_int_dec (i : Z) :
  0 < i -> (Z.to_nat (wrap_int (i - 1)) < Z.to_nat i)%nat.
Proof.
  intros Hi. unfold wrap_int.
  assert (H : (i - 1 + 2 ^ 31) mod 2 ^ 32 <= i - 1 + 2 ^ 31)
    by (apply Z.mod_le; lia).
  lia.
Qed.

(** ** The countdown loop *)

Lemma countdown_step (i : Z) (w : world) :
  countdown i w =
  if 0 <? i
  then (print_num i ;; sleep_ms 1000 ;; countdown (wrap_int (i - 1))) w
  else (tt, w).
Proof.
  rewrite (countdown_equation_1 i).
  destruct (Z_lt_dec 0 i) as [Hi | Hi]; cbn;
    destruct (Z.ltb_spec 0 i); try lia; reflexivity.
Qed.

Lemma wrap_int_id (z : Z) : - 2 ^ 31 <= z <= INT_MAX -> wrap_int z = z.
Proof.
  unfold wrap_int, INT_MAX. intros H.
  rewrite Z.mod_small by lia. lia.
Qed.

Lemma countdown_of_nat (n : nat) (w : world) :
  Z.of_nat n <= INT_MAX ->
  countdown (Z.of_nat n) w =
  (tt, mkWorld (estado w) (log w ++ ticks (digits_down n))).
Proof.
  revert w. induction n as [| n IH]; intros w Hn.
  - rewrite countdown_step. cbn. rewrite app_nil_r. destruct w; reflexivity.
  - rewrite countdown_step.
    replace (0 <? Z.of_nat (S n)) with true by (symmetry; apply Z.ltb_lt; lia).
    replace (wrap_int (Z.of_nat (S n) - 1)) with (Z.of_nat n)
      by (rewrite wrap_int_id; unfold INT_MAX in *; lia).
    unfold bind, print_num, sleep_ms, issue. cbn [estado log].
    rewrite IH by lia. cbn [estado log digits_down ticks flat_map].
    rewrite <- !app_assoc. reflexivity.
Qed.

Lemma countdown_log (i : Z) (w : world) :
  0 <= i <= INT_MAX ->
  countdown i w =
  (tt, mkWorld (estado w) (log w ++ ticks (digits_down (Z.to_nat i)))).
Proof.
  intros Hi. rewrite <- (Z2Nat.id i) at 1 by lia.
  apply countdown_of_nat. rewrite Z2Nat.id; lia.
Qed.

(** A duration that is not positive gives no render and no wait. *)
Lemma countdown_nonpositive (i : Z) (w : world) :
  i <= 0 -> countdown i w = (tt, w).
Proof.
  intros Hi. rewrite countdown_step.
  destruct (Z.ltb_spec 0 i); [lia | reflexivity].
Qed.

(** ** The log is append-only: every action of the program is framed *)

Lemma framed_ret {A} (a : A) : framed (ret a).
Proof. intros e l. cbn. rewrite app_nil_r. reflexivity. Qed.

Lemma framed_issue (c : command) : framed (issue c).
Proof. intros e l. reflexivity. Qed.

Lemma framed_read_estado : framed read_estado.
Proof. intros e l. cbn. rewrite app_nil_r. reflexivity. Qed.

Lemma framed_write_estado (v : Z) : framed (write_estado v).
Proof. intros e l. cbn. rewrite app_nil_r. reflexivity. Qed.

Lemma framed_bind {A B} (m : M A) (k : A -> M B) :
  framed m -> (forall a, framed (k a)) -> framed (bind m k).
Proof.
  intros Hm Hk e l. unfold bind.
  rewrite (Hm e l).
  destruct (m (mkWorld e [])) as [a [e1 l1]]. cbn [fst snd estado log].
  rewrite (Hk a e1 (l ++ l1)), (Hk a e1 l1).
  destruct (k a (mkWorld e1 [])) as [b [e2 l2]]. cbn [fst snd estado log].
  rewrite app_assoc. reflexivity.
Qed.

Lemma framed_countdown (i : Z) : framed (countdown i).
Proof.
  remember (Z.to_nat i) as n eqn:Hn. revert i Hn.
  induction n as [n IH] using lt_wf_ind. intros i Hn.
  assert (Hstep : forall w, countdown i w =
            (if 0 <? i
             then print_num i ;; sleep_ms 1000 ;; countdown (wrap_int (i - 1))
             else ret tt) w)
    by (intros w; rewrite countdown_step; destruct (0 <? i); reflexivity).
  intros e l. rewrite !Hstep.
  destruct (Z.ltb_spec 0 i) as [Hi | Hi].
  - apply framed_bind; [apply framed_issue | intros _].
    apply framed_bind; [apply framed_issue | intros _].
    apply (IH (Z.to_nat (wrap_int (i - 1)))); [| reflexivity].
    subst n. apply wrap_int_dec; assumption.
  - apply framed_ret.
Qed.

Create HintDb framed discriminated.
#[local] Hint Resolve framed_ret framed_issue framed_read_estado
  framed_write_estado framed_countdown : framed.

Ltac framed_tac :=
  repeat first
    [ apply framed_bind; [| intros ?]
    | solve [ auto with framed ]
    | progress unfold gpio_init, gpio_set_dir, gpio_pull_up, gpio_put,
        gpio_set_function, pwm_init, pwm_set_gpio_level, i2c_init,
        ssd1306_init, ssd1306_config, ssd1306_fill, ssd1306_draw_string,
        ssd1306_send_data, print_num, clear_leds, sleep_ms, pio_add_program,
        pio_matriz_program_init, stdio_init_all, printf_estado,
        set_pwm_pin, disable_pwm ].

Lemma framed_controlar_semaforo : framed controlar_semaforo.
Proof.
  unfold controlar_semaforo.
  apply framed_bind; [apply framed_read_estado | intros e].
  destruct e as [| [p | [p | p |] |] | p]; framed_tac.
Qed.

Lemma framed_configurar_hardware : framed configurar_hardware.
Proof. unfold configurar_hardware. framed_tac. Qed.

Lemma framed_main_boot : framed main_boot.
Proof. unfold main_boot. framed_tac. Qed.

(** What one call does, by the [estado] it is entered with. *)
Lemma exec_controlar_semaforo (w : world) :
  exec controlar_semaforo w =
  mkWorld (estado (exec controlar_semaforo (mkWorld (estado w) [])))
          (log w ++ phase_commands (estado w)).
Proof.
  destruct w as [e l]. unfold exec, phase_commands.
  rewrite (framed_controlar_semaforo e l). reflexivity.
Qed.

Lemma result_controlar_semaforo (w : world) :
  result controlar_semaforo w =
  result controlar_semaforo (mkWorld (estado w) []).
Proof.
  destruct w as [e l]. unfold result.
  rewrite (framed_controlar_semaforo e l). reflexivity.
Qed.

Lemma controlar_semaforo_log (w : world) :
  log (exec controlar_semaforo w) = log w ++ phase_commands (estado w).
Proof. rewrite exec_controlar_semaforo. reflexivity. Qed.

Lemma controlar_semaforo_estado (w : world) :
  estado w = 0 \/ estado w = 1 \/ estado w = 2 ->
  estado (exec controlar_semaforo w) = next_phase (estado w).
Proof.
  intros H. rewrite exec_controlar_semaforo. cbn [estado].
  destruct H as [-> | [-> | ->]]; reflexivity.
Qed.

Lemma next_phase_mod3 (n : nat) :
  next_phase (Z.of_nat n mod 3) = Z.of_nat (S n) mod 3.
Proof.
  rewrite Nat2Z.inj_succ. unfold Z.succ.
  rewrite Z.add_mod by lia.
  assert (H : 0 <= Z.of_nat n mod 3 < 3) by (apply Z.mod_pos_bound; lia).
  assert (C : Z.of_nat n mod 3 = 0 \/ Z.of_nat n mod 3 = 1
              \/ Z.of_nat n mod 3 = 2) by lia.
  destruct C as [-> | [-> | ->]]; reflexivity.
Qed.

Lemma mod3_cases (n : nat) :
  Z.of_nat n mod 3 = 0 \/ Z.of_nat n mod 3 = 1 \/ Z.of_nat n mod 3 = 2.
Proof.
  assert (H : 0 <= Z.of_nat n mod 3 < 3) by (apply Z.mod_pos_bound; lia).
  lia.
Qed.

Lemma after_calls_S (n : nat) (w : world) :
  after_calls (S n) w = exec controlar_semaforo (after_calls n w).
Proof. reflexivity. Qed.

Lemma estado_after_calls (n : nat) (l : list command) :
  estado (after_calls n (mkWorld 0 l)) = Z.of_nat n mod 3.
Proof.
  induction n as [| n IH]; [reflexivity |].
  rewrite after_calls_S, controlar_semaforo_estado; rewrite IH.
  - apply next_phase_mod3.
  - apply mod3_cases.
Qed.

Lemma running_phase_mod3 (n : nat) : running_phase n = Z.of_nat n mod 3.
Proof. apply estado_after_calls. Qed.

Lemma running_phase_cases (n : nat) :
  running_phase n = 0 \/ running_phase n = 1 \/ running_phase n = 2.
Proof. rewrite running_phase_mod3. apply mod3_cases. Qed.

(** The three branches, command by command. *)
Example phase_commands_stop :
  phase_commands STOP =
  [GpioPut LED_R false; GpioPut LED_G false; GpioPut LED_B false;
   GpioSetFunction BUZZER GPIO_FUNC_SIO; GpioPut BUZZER false;
   GpioPut LED_R true;
   Ssd1306Fill false; Ssd1306DrawString "Proibido a" 5 20;
   Ssd1306DrawString "passagem" 5 40; Ssd1306SendData;
   PrintNum 3; SleepMs 1000; PrintNum 2; SleepMs 1000;
   PrintNum 1; SleepMs 1000; ClearLeds].
Proof. reflexivity. Qed.

Example phase_commands_caution :
  phase_commands CAUTION =
  [GpioPut LED_R true; GpioPut LED_G true; GpioPut LED_B false;
   Ssd1306Fill false; Ssd1306DrawString "Atencao!" 5 20; Ssd1306SendData;
   PrintNum 3; SleepMs 1000; PrintNum 2; SleepMs 1000;
   PrintNum 1; SleepMs 1000; ClearLeds].
Proof. reflexivity. Qed.

Example phase_commands_go :
  phase_commands GO =
  [GpioPut LED_R false; GpioPut LED_G true; GpioPut LED_B false;
   GpioSetFunction BUZZER GPIO_FUNC_PWM; PwmInit BUZZER 300 10000 true;
   PwmSetGpioLevel BUZZER 300;
   Ssd1306Fill false; Ssd1306DrawString "Permitido a" 5 20;
   Ssd1306DrawString "passagem" 5 40; Ssd1306SendData;
   PrintNum 6; SleepMs 1000; PrintNum 5; SleepMs 1000;
   PrintNum 4; SleepMs 1000; PrintNum 3; SleepMs 1000;
   PrintNum 2; SleepMs 1000; PrintNum 1; SleepMs 1000; ClearLeds].
Proof. reflexivity. Qed.

(** The [default] branch: entered with any other [estado], the call
    issues nothing, changes nothing and returns [false]. *)
Lemma controlar_semaforo_default (w : world) :
  estado w <> 0 -> estado w <> 1 -> estado w <> 2 ->
  controlar_semaforo w = (false, w).
Proof.
  destruct w as [e l]. cbn [estado]. intros H0 H1 H2.
  unfold controlar_semaforo, bind, read_estado. cbn [estado].
  destruct e as [| [p | [p | p |] |] | p]; try reflexivity; congruence.
Qed.

(** ** Phase transitions *)

(** C1.  Starting at STOP, one call leaves the phase at CAUTION, two at
    GO, three at STOP again; in general every call moves [estado] to the
    next phase of the cycle STOP -> CAUTION -> GO -> STOP, never staying
    where it was, so after [n] calls the phase is [n mod 3]. *)
Theorem phase_transition_law (l : list command) (n : nat) :
  estado (after_calls 1 (mkWorld STOP l)) = CAUTION /\
  estado (after_calls 2 (mkWorld STOP l)) = GO /\
  estado (after_calls 3 (mkWorld STOP l)) = STOP /\
  estado (after_calls n (mkWorld STOP l)) = Z.of_nat n mod 3 /\
  estado (after_calls (S n) (mkWorld STOP l)) =
    next_phase (estado (after_calls n (mkWorld STOP l))) /\
  estado (after_calls (S n) (mkWorld STOP l)) <>
    estado (after_calls n (mkWorld STOP l)).
Proof.
  unfold STOP, CAUTION, GO.
  rewrite !estado_after_calls.
  repeat split; try reflexivity.
  - symmetry. apply next_phase_mod3.
  - rewrite <- next_phase_mod3.
    destruct (mod3_cases n) as [-> | [-> | ->]]; discriminate.
Qed.

(** C7.  Every state reached from [estado = 0] by calls of
    [controlar_semaforo] has [estado] in {0, 1, 2}, and the call made
    from it returns [true]: the [default] branch is never taken. *)
Theorem default_branch_unreachable (l : list command) (n : nat) :
  let w := after_calls n (mkWorld 0 l) in
  (estado w = 0 \/ estado w = 1 \/ estado w = 2) /\
  result controlar_semaforo w = true.
Proof.
  cbn zeta. rewrite result_controlar_semaforo, estado_after_calls.
  split; [apply mod3_cases |].
  destruct (mod3_cases n) as [-> | [-> | ->]]; reflexivity.
Qed.

(** C6.  Six calls from a fresh STOP start leave the phases CAUTION, GO,
    STOP, CAUTION, GO, STOP in turn and render 24 digits in all. *)
Theorem six_calls_scenario :
  map (fun k => estado (after_calls k w0)) [1; 2; 3; 4; 5; 6]%nat =
    [CAUTION; GO; STOP; CAUTION; GO; STOP] /\
  count is_render (log (after_calls 6 w0)) = 24%nat.
Proof. split; vm_compute; reflexivity. Qed.

(** ** The countdown sequencer *)

Lemma digits_down_length (n : nat) : length (digits_down n) = n.
Proof. induction n as [| n IH]; cbn [digits_down length]; congruence. Qed.

Lemma digits_down_nth (n k : nat) :
  (k < n)%nat -> nth k (digits_down n) 0 = Z.of_nat n - Z.of_nat k.
Proof.
  revert k. induction n as [| n IH]; intros k Hk; [lia |].
  destruct k as [| k]; cbn [digits_down nth].
  - lia.
  - rewrite IH by lia. lia.
Qed.

Lemma digits_down_bounds (n : nat) (d : Z) :
  In d (digits_down n) -> 1 <= d <= Z.of_nat n.
Proof.
  induction n as [| n IH]; cbn [digits_down In]; [tauto |].
  intros [<- | H]; [lia |]. specialize (IH H). lia.
Qed.

Lemma digits_down_last (n : nat) : last (digits_down (S n)) 0 = 1.
Proof.
  induction n as [| n IH]; [reflexivity |].
  change (digits_down (S (S n))) with (Z.of_nat (S (S n)) :: digits_down (S n)).
  change (digits_down (S n)) with (Z.of_nat (S n) :: digits_down n) in *.
  exact IH.
Qed.

Lemma rendered_ticks (ds : list Z) : rendered (ticks ds) = ds.
Proof.
  unfold rendered, ticks.
  induction ds as [| d ds IH]; cbn; [reflexivity |].
  f_equal. exact IH.
Qed.

Lemma count_wait_ticks (ds : list Z) : count is_wait (ticks ds) = length ds.
Proof.
  unfold count. induction ds as [| d ds IH]; cbn; [reflexivity |].
  f_equal. exact IH.
Qed.

(** C4.  For a duration [D] that is a positive [int], the countdown loop
    appends to the log exactly the render-then-wait pairs of the digits
    [D, D-1, ..., 1]: [D] renders, the [k]-th (from 0) showing [D - k],
    each followed by one [sleep_ms(1000)], the last digit being 1 and no
    digit 0; it leaves [estado] alone. *)
Theorem countdown_sequence (D : Z) (w : world) :
  0 < D <= INT_MAX ->
  let ds := digits_down (Z.to_nat D) in
  countdown D w = (tt, mkWorld (estado w) (log w ++ ticks ds)) /\
  ticks ds = flat_map (fun d => [PrintNum d; SleepMs 1000]) ds /\
  rendered (ticks ds) = ds /\
  length ds = Z.to_nat D /\
  count is_wait (ticks ds) = Z.to_nat D /\
  (forall k, (k < Z.to_nat D)%nat -> nth k ds 0 = D - Z.of_nat k) /\
  last ds 0 = 1 /\
  ~ In 0 ds.
Proof.
  intros HD ds. subst ds.
  repeat split.
  - apply countdown_log. lia.
  - apply rendered_ticks.
  - apply digits_down_length.
  - rewrite count_wait_ticks. apply digits_down_length.
  - intros k Hk. rewrite digits_down_nth by assumption.
    rewrite Z2Nat.id by lia. reflexivity.
  - destruct (Z.to_nat D) as [| n] eqn:E; [lia |]. apply digits_down_last.
  - intros H. apply digits_down_bounds in H. lia.
Qed.

(** With [D = 3] the digits are [3; 2; 1], with [D = 6] they are
    [6; 5; 4; 3; 2; 1]. *)
Lemma countdown_sequence_witness :
  (0 < 3 <= INT_MAX /\
   rendered (log (exec (countdown 3) w0)) = [3; 2; 1] /\
   log (exec (countdown 3) w0) =
     [PrintNum 3; SleepMs 1000; PrintNum 2; SleepMs 1000;
      PrintNum 1; SleepMs 1000]) /\
  (0 < 6 <= INT_MAX /\
   rendered (log (exec (countdown 6) w0)) = [6; 5; 4; 3; 2; 1]).
Proof.
  assert (H3 : 0 < 3 <= INT_MAX) by (unfold INT_MAX; lia).
  assert (H6 : 0 < 6 <= INT_MAX) by (unfold INT_MAX; lia).
  split.
  - split; [exact H3 |].
    destruct (countdown_sequence 3 w0 H3) as [E _].
    unfold exec. rewrite E. split; reflexivity.
  - split; [exact H6 |].
    destruct (countdown_sequence 6 w0 H6) as [E _].
    unfold exec. rewrite E. reflexivity.
Defined.

(** ** Replaying commands on the pins *)

Lemma replay_app (hw : pins) (a b : list command) :
  replay hw (a ++ b) = replay (replay hw a) b.
Proof. apply fold_left_app. Qed.

Lemma replay_passive (cs : list command) (hw : pins) :
  forallb passive cs = true -> replay hw cs = hw.
Proof.
  revert hw. induction cs as [| c cs IH]; intros hw H; [reflexivity |].
  cbn [forallb] in H. apply andb_prop in H as [Hc Hcs].
  cbn [replay fold_left]. fold (replay (apply_command hw c) cs).
  rewrite IH by assumption.
  destruct c; try discriminate; reflexivity.
Qed.

Lemma forallb_firstn {A} (p : A -> bool) (k : nat) (l : list A) :
  forallb p l = true -> forallb p (firstn k l) = true.
Proof.
  revert k. induction l as [| a l IH]; intros [| k] H; try reflexivity.
  cbn [forallb firstn] in *. apply andb_prop in H as [Ha Hl].
  rewrite Ha, IH by assumption. reflexivity.
Qed.

Lemma firstn_plus {A} (n k : nat) (l : list A) :
  firstn (n + k) l = firstn n l ++ firstn k (skipn n l).
Proof.
  revert l. induction n as [| n IH]; intros l; [reflexivity |].
  destruct l as [| a l]; cbn [Nat.add firstn skipn app].
  - rewrite firstn_nil. reflexivity.
  - rewrite IH. reflexivity.
Qed.

Lemma body_commands_passive (e : Z) :
  e = 0 \/ e = 1 \/ e = 2 -> forallb passive (body_commands e) = true.
Proof. intros [-> | [-> | ->]]; vm_compute; reflexivity. Qed.

(** Once the set-up commands of a branch are out, the pins stay as the
    set-up left them until the call returns. *)
Lemma replay_after_setup (hw : pins) (e : Z) (k : nat) :
  e = 0 \/ e = 1 \/ e = 2 ->
  replay hw (firstn (setup_length e + k) (phase_commands e)) =
  replay hw (setup_commands e).
Proof.
  intros He. rewrite firstn_plus, replay_app.
  apply replay_passive. apply forallb_firstn.
  apply body_commands_passive. exact He.
Qed.

Lemma replay_phase_commands (hw : pins) (e : Z) :
  e = 0 \/ e = 1 \/ e = 2 ->
  replay hw (phase_commands e) = replay hw (setup_commands e).
Proof.
  intros He.
  rewrite <- (replay_after_setup hw e (length (phase_commands e))) by exact He.
  rewrite firstn_all2 by lia. reflexivity.
Qed.

Lemma indicator_after_setup (hw : pins) (e : Z) :
  e = 0 \/ e = 1 \/ e = 2 ->
  indicator (replay hw (setup_commands e)) = indicator_pattern e.
Proof. intros [-> | [-> | ->]]; reflexivity. Qed.

Lemma buzzer_after_setup_stop (hw : pins) :
  buzzer_on (replay hw (setup_commands 0)) = false.
Proof. reflexivity. Qed.

Lemma buzzer_after_setup_caution (hw : pins) :
  buzzer_on (replay hw (setup_commands 1)) = buzzer_on hw.
Proof. reflexivity. Qed.

Lemma buzzer_after_setup_go (hw : pins) :
  buzzer_on (replay hw (setup_commands 2)) = true.
Proof. reflexivity. Qed.

Lemma log_after_calls_S (n : nat) :
  log (after_calls (S n) w0) =
  log (after_calls n w0) ++ phase_commands (running_phase n).
Proof. rewrite after_calls_S. apply controlar_semaforo_log. Qed.

Lemma running_phase_S (n : nat) :
  running_phase (S n) = next_phase (running_phase n).
Proof.
  unfold running_phase. rewrite after_calls_S.
  apply controlar_semaforo_estado. apply running_phase_cases.
Qed.

(** A call that runs CAUTION is entered with the buzzer silent, because
    the call before it ran STOP. *)
Lemma buzzer_off_entering_caution (hw0 : pins) (n : nat) :
  running_phase n = 1 ->
  buzzer_on (replay hw0 (log (after_calls n w0))) = false.
Proof.
  destruct n as [| n]; [discriminate |].
  rewrite running_phase_S, log_after_calls_S. intros H.
  assert (E : running_phase n = 0).
  { destruct (running_phase_cases n) as [E | [E | E]];
      rewrite E in H; [exact E | discriminate | discriminate]. }
  rewrite E, replay_app, replay_phase_commands by auto.
  apply buzzer_after_setup_stop.
Qed.

Lemma pins_at_after_setup (hw0 : pins) (n k : nat) :
  pins_at hw0 n (setup_length (running_phase n) + k) =
  replay (replay hw0 (log (after_calls n w0)))
         (setup_commands (running_phase n)).
Proof.
  unfold pins_at. rewrite replay_app.
  apply replay_after_setup. apply running_phase_cases.
Qed.

(** ** Outputs applied by each phase *)

(** C2, as stated, fails: the CAUTION branch starts by switching the red
    channel on and the GO branch has no buzzer-disable in front; neither
    starts by deactivating all outputs. *)
Lemma caution_and_go_do_not_deactivate_first :
  hd_error (phase_commands CAUTION) = Some (GpioPut LED_R true) /\
  ~ deactivates_first CAUTION /\
  ~ deactivates_first GO.
Proof.
  split; [reflexivity |].
  split; intros [rest H]; vm_compute in H; discriminate.
Qed.

(** C2, amended.  Only the STOP branch first deactivates all outputs and
    then applies its pattern.  The CAUTION and GO branches write each of
    the three indicator channels to the phase's own pattern directly; GO
    then starts the buzzer, CAUTION issues nothing to it.  In every
    branch, from the end of this set-up to the end of the call, the
    indicator shows exactly the phase's pattern whatever the pins held
    before; the buzzer is off in STOP, on in GO and as it was found in
    CAUTION. *)
Theorem outputs_applied_per_phase (hw : pins) (k : nat) :
  setup_commands STOP = deactivate_all ++ [GpioPut LED_R true] /\
  setup_commands CAUTION =
    [GpioPut LED_R true; GpioPut LED_G true; GpioPut LED_B false] /\
  setup_commands GO =
    [GpioPut LED_R false; GpioPut LED_G true; GpioPut LED_B false;
     GpioSetFunction BUZZER GPIO_FUNC_PWM; PwmInit BUZZER 300 10000 true;
     PwmSetGpioLevel BUZZER 300] /\
  deactivates_first STOP /\
  (let at_ e := replay hw (firstn (setup_length e + k) (phase_commands e)) in
   indicator (at_ STOP) = indicator_pattern STOP /\
   indicator (at_ CAUTION) = indicator_pattern CAUTION /\
   indicator (at_ GO) = indicator_pattern GO /\
   buzzer_on (at_ STOP) = false /\
   buzzer_on (at_ CAUTION) = buzzer_on hw /\
   buzzer_on (at_ GO) = true).
Proof.
  unfold STOP, CAUTION, GO.
  repeat split; try reflexivity.
  - eexists. vm_compute. reflexivity.
  - rewrite replay_after_setup by auto. apply indicator_after_setup; auto.
  - rewrite replay_after_setup by auto. apply indicator_after_setup; auto.
  - rewrite replay_after_setup by auto. apply indicator_after_setup; auto.
  - rewrite replay_after_setup by auto. apply buzzer_after_setup_stop.
  - rewrite replay_after_setup by auto. apply buzzer_after_setup_caution.
  - rewrite replay_after_setup by auto. apply buzzer_after_setup_go.
Qed.

(** ** The buzzer *)

(** C3, as stated, fails: the fourth call runs STOP, and after its first
    command ([gpio_put(LED_R, 0)]) the buzzer started by the preceding GO
    is still sounding; [disable_pwm] comes three commands later. *)
Lemma buzzer_sounds_entering_stop :
  running_phase 3 = STOP /\
  buzzer_on (pins_at pins_reset 3 1) = true /\
  ~ buzzer_tracks_phase pins_reset.
Proof.
  split; [reflexivity |]. split; [reflexivity |].
  intros H.
  assert (C : buzzer_on (pins_at pins_reset 3 1) = (running_phase 3 =? GO))
    by (apply H; vm_compute; lia).
  vm_compute in C. discriminate.
Qed.

Lemma apply_command_spares_buzzer (hw : pins) (c : command) :
  spares_buzzer c = true ->
  let hw' := apply_command hw c in
  pin_func hw' BUZZER = pin_func hw BUZZER /\
  sio_out hw' BUZZER = sio_out hw BUZZER /\
  pwm_enabled hw' BUZZER = pwm_enabled hw BUZZER /\
  pwm_level hw' BUZZER = pwm_level hw BUZZER.
Proof.
  unfold spares_buzzer, targets_buzzer.
  destruct c; cbn [command_pin apply_command]; intros H; cbn zeta;
    cbn [pin_func sio_out pwm_enabled pwm_level]; unfold upd;
    try rewrite Z.eqb_sym in H;
    try (apply negb_true_iff in H; rewrite H); auto.
Qed.

Lemma replay_spares_buzzer (cs : list command) (hw : pins) :
  forallb spares_buzzer cs = true ->
  let hw' := replay hw cs in
  pin_func hw' BUZZER = pin_func hw BUZZER /\
  sio_out hw' BUZZER = sio_out hw BUZZER /\
  pwm_enabled hw' BUZZER = pwm_enabled hw BUZZER /\
  pwm_level hw' BUZZER = pwm_level hw BUZZER.
Proof.
  revert hw. induction cs as [| c cs IH]; intros hw H; [cbn; auto |].
  cbn [forallb] in H. apply andb_prop in H as [Hc Hcs].
  cbn [replay fold_left] in *. fold (replay (apply_command hw c) cs).
  destruct (IH (apply_command hw c) Hcs) as (F & S & E & L).
  destruct (apply_command_spares_buzzer hw c Hc) as (F' & S' & E' & L').
  cbn zeta. repeat split; congruence.
Qed.

Lemma buzzer_at_call_entry (hw0 : pins) (n : nat) :
  buzzer_on (replay hw0 (log (after_calls (S n) w0))) =
  (running_phase (S n) =? STOP).
Proof.
  rewrite running_phase_S, log_after_calls_S, replay_app.
  rewrite replay_phase_commands by apply running_phase_cases.
  destruct (running_phase_cases n) as [E | [E | E]]; rewrite E.
  - apply buzzer_after_setup_stop.
  - rewrite buzzer_after_setup_caution.
    apply buzzer_off_entering_caution. exact E.
  - apply buzzer_after_setup_go.
Qed.

(** The first three commands of every branch are the indicator writes. *)
Lemma leading_writes_spare_buzzer (e : Z) :
  e = 0 \/ e = 1 \/ e = 2 ->
  forallb spares_buzzer (firstn 3 (phase_commands e)) = true.
Proof. intros [-> | [-> | ->]]; reflexivity. Qed.

(** C3, amended.  From any power-on pins, in every state of call [n + 1]
    from the end of its output set-up onwards (display update, every
    countdown render and wait, return), the buzzer is on if and only if
    the call runs GO.  Between calls the buzzer stays as the finished
    phase left it: when call [n + 2] is entered it is on exactly when
    [estado] reads STOP, that is, when the phase just finished was GO;
    and it stays so through the first three commands of the branch, the
    indicator writes that precede [disable_pwm] in the STOP branch. *)
Theorem buzzer_iff_go_after_setup (hw0 : pins) (n k : nat) :
  buzzer_on (pins_at hw0 n (setup_length (running_phase n) + k)) =
    (running_phase n =? GO) /\
  buzzer_on (pins_at hw0 (S n) 0) = (running_phase (S n) =? STOP) /\
  buzzer_on (pins_at hw0 (S n) (Nat.min k 3)) = (running_phase (S n) =? STOP).
Proof.
  split; [| split].
  - rewrite pins_at_after_setup.
    destruct (running_phase_cases n) as [E | [E | E]]; rewrite E.
    + apply buzzer_after_setup_stop.
    + rewrite buzzer_after_setup_caution.
      apply buzzer_off_entering_caution. exact E.
    + apply buzzer_after_setup_go.
  - unfold pins_at. cbn [firstn]. rewrite app_nil_r.
    apply buzzer_at_call_entry.
  - unfold pins_at. rewrite replay_app, <- firstn_firstn.
    destruct (replay_spares_buzzer
                (firstn k (firstn 3 (phase_commands (running_phase (S n)))))
                (replay hw0 (log (after_calls (S n) w0)))
                (forallb_firstn _ k _
                   (leading_writes_spare_buzzer _ (running_phase_cases (S n)))))
      as (F & S & E & L).
    rewrite <- buzzer_at_call_entry with (hw0 := hw0).
    unfold buzzer_on. rewrite F, S, E, L. reflexivity.
Qed.

(** C10.  The CAUTION branch issues no command that addresses the buzzer
    pin, so at every point of a CAUTION call the buzzer pin's function,
    latch, PWM enable and PWM level, and with them the buzzer output,
    are what they were when the call was entered. *)
Theorem caution_leaves_buzzer_alone (hw : pins) (k : nat) :
  forallb spares_buzzer (phase_commands CAUTION) = true /\
  (let hw' := replay hw (firstn k (phase_commands CAUTION)) in
   pin_func hw' BUZZER = pin_func hw BUZZER /\
   sio_out hw' BUZZER = sio_out hw BUZZER /\
   pwm_enabled hw' BUZZER = pwm_enabled hw BUZZER /\
   pwm_level hw' BUZZER = pwm_level hw BUZZER /\
   buzzer_on hw' = buzzer_on hw).
Proof.
  assert (H : forallb spares_buzzer (phase_commands CAUTION) = true)
    by (vm_compute; reflexivity).
  split; [exact H |]. cbn zeta.
  destruct (replay_spares_buzzer (firstn k (phase_commands CAUTION)) hw
              (forallb_firstn _ k _ H)) as (F & S & E & L).
  repeat split; try assumption.
  unfold buzzer_on. rewrite F, S, E, L. reflexivity.
Qed.

(** The STOP and GO branches, by contrast, do address the buzzer. *)
Lemma stop_and_go_command_buzzer :
  existsb targets_buzzer (phase_commands STOP) = true /\
  existsb targets_buzzer (phase_commands GO) = true.
Proof. split; reflexivity. Qed.

(** ** The blue channel and the indicator patterns *)

Lemma phase_commands_keep_blue_low (e : Z) :
  e = 0 \/ e = 1 \/ e = 2 ->
  forallb keeps_blue_low (phase_commands e) = true.
Proof. intros [-> | [-> | ->]]; vm_compute; reflexivity. Qed.

Lemma log_keeps_blue_low (n : nat) :
  forallb keeps_blue_low (log (after_calls n w0)) = true.
Proof.
  induction n as [| n IH]; [reflexivity |].
  rewrite log_after_calls_S, forallb_app, IH.
  apply phase_commands_keep_blue_low, running_phase_cases.
Qed.

Lemma apply_command_keeps_blue_low (hw : pins) (c : command) :
  keeps_blue_low c = true ->
  sio_out hw LED_B = false ->
  sio_out (apply_command hw c) LED_B = false.
Proof.
  unfold keeps_blue_low. intros Hc Hlow.
  destruct c; cbn [apply_command sio_out]; try exact Hlow; unfold upd.
  - destruct (LED_B =? pin); [reflexivity | exact Hlow].
  - destruct (Z.eqb_spec LED_B pin) as [<- | _]; [| exact Hlow].
    destruct value; [discriminate | reflexivity].
Qed.

Lemma replay_keeps_blue_low (cs : list command) (hw : pins) :
  forallb keeps_blue_low cs = true ->
  sio_out hw LED_B = false ->
  sio_out (replay hw cs) LED_B = false.
Proof.
  revert hw. induction cs as [| c cs IH]; intros hw H Hlow; [exact Hlow |].
  cbn [forallb] in H. apply andb_prop in H as [Hc Hcs].
  cbn [replay fold_left]. fold (replay (apply_command hw c) cs).
  apply IH; [exact Hcs |].
  apply apply_command_keeps_blue_low; assumption.
Qed.

Lemma indicator_at_entry (n : nat) :
  indicator (replay pins_reset (log (after_calls n w0))) =
  match n with
  | O => dark
  | S m => indicator_pattern (running_phase m)
  end.
Proof.
  destruct n as [| m]; [reflexivity |].
  rewrite log_after_calls_S, replay_app.
  rewrite replay_phase_commands by apply running_phase_cases.
  apply indicator_after_setup, running_phase_cases.
Qed.

Ltac settle_indicator :=
  split;
  [ first [ left; reflexivity
          | right; left; reflexivity
          | right; right; left; reflexivity
          | right; right; right; reflexivity ]
  | first [ left; discriminate
          | right; split; [reflexivity | cbv; lia] ] ].

(** The indicator at each point of a call, given what it showed when the
    call was entered: dark or green for STOP, red for CAUTION, red and
    green for GO. *)
Lemma indicator_within_call (hw : pins) (e : Z) (k : nat) :
  (e = STOP /\ (indicator hw = dark \/ indicator hw = indicator_pattern GO))
  \/ (e = CAUTION /\ indicator hw = indicator_pattern STOP)
  \/ (e = GO /\ indicator hw = indicator_pattern CAUTION) ->
  let i := indicator (replay hw (firstn k (phase_commands e))) in
  (i = dark \/ shows_phase_pattern i) /\
  (i <> dark \/ (e = STOP /\ (k < setup_length STOP)%nat)).
Proof.
  intros H. cbn zeta.
  assert (He : e = 0 \/ e = 1 \/ e = 2)
    by (unfold STOP, CAUTION, GO in H; tauto).
  destruct (Nat.lt_ge_cases k 6) as [Hk | Hk].
  - unfold shows_phase_pattern.
    destruct H as [[-> [H | H]] | [[-> H] | [-> H]]];
      vm_compute in H; injection H as HR HG HB;
      do 6 (try destruct k as [| k]); try lia;
      vm_compute; rewrite ?HR, ?HG, ?HB; settle_indicator.
  - assert (Hs : (setup_length e <= k)%nat)
      by (destruct He as [-> | [-> | ->]]; cbn; lia).
    replace k with (setup_length e + (k - setup_length e))%nat by lia.
    rewrite replay_after_setup, indicator_after_setup by exact He.
    unfold shows_phase_pattern.
    destruct He as [-> | [-> | ->]]; split;
      first [ left; discriminate
            | right; left; reflexivity
            | right; right; left; reflexivity
            | right; right; right; reflexivity ].
Qed.

(** C9, as stated, fails: two commands into the fourth call, which runs
    STOP, the three channels are all off, none of the three patterns. *)
Lemma indicator_dark_in_stop_setup :
  running_phase 3 = STOP /\
  indicator (pins_at pins_reset 3 2) = (false, false, false) /\
  ~ indicator_tracks_patterns pins_reset.
Proof.
  split; [reflexivity |]. split; [reflexivity |].
  intros H.
  assert (C : shows_phase_pattern (indicator (pins_at pins_reset 3 2)))
    by (apply H; vm_compute; lia).
  vm_compute in C. destruct C as [C | [C | C]]; discriminate C.
Qed.

(** C9, amended.  Each of the three branches writes the blue channel low;
    no call ever writes it high, so from reset pins it is low in every
    state of every call.  The pattern a call applies (what the indicator
    shows from the end of its set-up to its return) is red only for STOP,
    red and green for CAUTION, green only for GO.  In every state the
    indicator shows one of these three patterns or is dark, and it is
    dark only during the set-up of a STOP branch, which first writes the
    three channels low. *)
Theorem blue_channel_never_high (hw0 : pins) (n k : nat) :
  In (GpioPut LED_B false) (phase_commands STOP) /\
  In (GpioPut LED_B false) (phase_commands CAUTION) /\
  In (GpioPut LED_B false) (phase_commands GO) /\
  ~ In (GpioPut LED_B true) (log (after_calls n w0)) /\
  sio_out (pins_at pins_reset n k) LED_B = false /\
  indicator (pins_at hw0 n (setup_length (running_phase n) + k)) =
    indicator_pattern (running_phase n) /\
  indicator_pattern STOP = (true, false, false) /\
  indicator_pattern CAUTION = (true, true, false) /\
  indicator_pattern GO = (false, true, false) /\
  (indicator (pins_at pins_reset n k) = dark \/
   shows_phase_pattern (indicator (pins_at pins_reset n k))) /\
  (indicator (pins_at pins_reset n k) <> dark \/
   (running_phase n = STOP /\ (k < setup_length STOP)%nat)).
Proof.
  assert (W : (indicator (pins_at pins_reset n k) = dark \/
               shows_phase_pattern (indicator (pins_at pins_reset n k))) /\
              (indicator (pins_at pins_reset n k) <> dark \/
               (running_phase n = STOP /\ (k < setup_length STOP)%nat))).
  { unfold pins_at. rewrite replay_app.
    apply indicator_within_call. rewrite indicator_at_entry.
    destruct n as [| m].
    - left. split; [reflexivity | left; reflexivity].
    - rewrite running_phase_S.
      destruct (running_phase_cases m) as [E | [E | E]]; rewrite E.
      + right; left. split; reflexivity.
      + right; right. split; reflexivity.
      + left. split; [reflexivity | right; reflexivity]. }
  destruct W as [W1 W2].
  split; [vm_compute; tauto |].
  split; [vm_compute; tauto |].
  split; [vm_compute; tauto |].
  split.
  { intros H.
    pose proof (proj1 (forallb_forall _ _) (log_keeps_blue_low n) _ H) as C.
    discriminate C. }
  split.
  { unfold pins_at. apply replay_keeps_blue_low; [| reflexivity].
    rewrite forallb_app, log_keeps_blue_low. apply forallb_firstn.
    apply phase_commands_keep_blue_low, running_phase_cases. }
  split.
  { rewrite pins_at_after_setup.
    apply indicator_after_setup, running_phase_cases. }
  repeat (split; [reflexivity |]).
  split; [exact W1 | exact W2].
Qed.

(** ** The main loop *)

Lemma main_run_iterations (k : nat) :
  main_run (2 + 4 * k) main_start = Some (AtWhile, main_world k).
Proof.
  induction k as [| k IH]; [reflexivity |].
  replace (2 + 4 * S k)%nat with (S (S (S (S (2 + 4 * k))))) by lia.
  cbn [main_run]. cbn [main_run] in IH. rewrite IH. reflexivity.
Qed.

Lemma main_never_returns (n : nat) :
  exists c, main_run n main_start = Some c /\ fst c <> AtReturn.
Proof.
  induction n as [| n (c & E & Hpc)].
  - eexists. split; [reflexivity | discriminate].
  - cbn [main_run]. rewrite E. destruct c as [pc w]. cbn [fst] in Hpc.
    destruct pc; try congruence; cbn [main_step];
      eexists; (split; [reflexivity | discriminate]).
Qed.

Lemma loop_iteration_log (w : world) :
  log (loop_iteration w) = log w ++ iteration_commands (estado w).
Proof.
  unfold loop_iteration. rewrite controlar_semaforo_log.
  destruct w as [e l]. cbn. rewrite <- !app_assoc. reflexivity.
Qed.

Lemma loop_iteration_estado (w : world) :
  estado w = 0 \/ estado w = 1 \/ estado w = 2 ->
  estado (loop_iteration w) = next_phase (estado w).
Proof.
  intros H. unfold loop_iteration.
  rewrite controlar_semaforo_estado; destruct w as [e l]; cbn in *; auto.
Qed.

Lemma main_world_estado (k : nat) :
  estado (main_world k) = Z.of_nat (S k) mod 3.
Proof.
  induction k as [| k IH]; [reflexivity |].
  cbn [main_world]. rewrite loop_iteration_estado; rewrite IH.
  - apply next_phase_mod3.
  - apply mod3_cases.
Qed.

Lemma main_world_estado_cases (k : nat) :
  estado (main_world k) = 0 \/ estado (main_world k) = 1
  \/ estado (main_world k) = 2.
Proof. rewrite main_world_estado. apply mod3_cases. Qed.


Lemma count_app (p : command -> bool) (a b : list command) :
  count p (a ++ b) = (count p a + count p b)%nat.
Proof. unfold count. rewrite filter_app, length_app. reflexivity. Qed.




Lemma count_status_line_phase (e : Z) :
  e = 0 \/ e = 1 \/ e = 2 -> count is_status_line (phase_commands e) = 0%nat.
Proof. intros [-> | [-> | ->]]; reflexivity. Qed.

Lemma count_phase_end_phase (e : Z) :
  e = 0 \/ e = 1 \/ e = 2 -> count is_phase_end (phase_commands e) = 1%nat.
Proof. intros [-> | [-> | ->]]; reflexivity. Qed.

Lemma count_status_line_main (k : nat) :
  count is_status_line (log (main_world k)) = k.
Proof.
  induction k as [| k IH]; [reflexivity |].
  cbn [main_world]. rewrite loop_iteration_log, count_app, IH.
  unfold iteration_commands.
  change (Printf ?e :: SleepMs 1000 :: ?r) with ([Printf e; SleepMs 1000] ++ r).
  rewrite count_app, count_status_line_phase by apply main_world_estado_cases.
  cbn. lia.
Qed.

Lemma count_phase_end_main (k : nat) :
  count is_phase_end (log (main_world k)) = S k.
Proof.
  induction k as [| k IH]; [reflexivity |].
  cbn [main_world]. rewrite loop_iteration_log, count_app, IH.
  unfold iteration_commands.
  change (Printf ?e :: SleepMs 1000 :: ?r) with ([Printf e; SleepMs 1000] ++ r).
  rewrite count_app, count_phase_end_phase by apply main_world_estado_cases.
  cbn. lia.
Qed.

(** C8.  [main] runs the first phase once after the boot and reaches the
    loop; each pass through the loop then emits one status line, waits,
    and runs one whole phase, so that after [k] passes [k] status lines
    have been printed and [k + 1] phases completed, no status line coming
    from inside a phase; and [main] never reaches its [return]. *)
Theorem main_loop_structure (k n : nat) :
  main_run 2 main_start = Some (AtWhile, main_world 0) /\
  log (main_world 0) = log (exec main_boot w0) ++ phase_commands STOP /\
  main_run (2 + 4 * k) main_start = Some (AtWhile, main_world k) /\
  log (main_world (S k)) =
    log (main_world k)
    ++ Printf (estado (main_world k)) :: SleepMs 1000
       :: phase_commands (estado (main_world k)) /\
  count is_status_line (log (main_world k)) = k /\
  count is_phase_end (log (main_world k)) = S k /\
  count is_status_line (phase_commands (estado (main_world k))) = 0%nat /\
  (exists c, main_run n main_start = Some c /\ fst c <> AtReturn).
Proof.
  repeat split.
  - apply main_run_iterations.
  - apply loop_iteration_log.
  - apply count_status_line_main.
  - apply count_phase_end_main.
  - apply count_status_line_phase, main_world_estado_cases.
  - apply main_never_returns.
Qed.

(** * The functions around the controller *)

(** ** [set_pwm_pin] and [disable_pwm] *)

Lemma upd_same {A} (f : Z -> A) (p : Z) (v : A) : upd f p v p = v.
Proof. unfold upd. rewrite Z.eqb_refl. reflexivity. Qed.

Lemma upd_other {A} (f : Z -> A) (p q : Z) (v : A) :
  q <> p -> upd f p v q = f q.
Proof. unfold upd. intros H. apply Z.eqb_neq in H. rewrite H. reflexivity. Qed.

(** X1.  On the buzzer pin, with a duty cycle in the documented range
    0-10000, [set_pwm_pin] followed by [disable_pwm] leaves the pin under
    SIO with its latch low, so the buzzer is silent, whatever the pins
    held before; but the PWM slice is not stopped: it stays enabled with
    the pin's level as just set, so that selecting the PWM function for
    the pin again would bring the signal back.  The function and the
    latch of every other pin are left as they were. *)
Theorem disable_pwm_after_set_pwm_pin
  (hw : pins) (freq duty_c q : Z) :
  q <> BUZZER ->
  0 <= duty_c <= 10000 ->
  let hw' :=
    replay hw (issued (set_pwm_pin BUZZER freq duty_c ;; disable_pwm BUZZER)) in
  buzzer_on hw' = false /\
  pin_func hw' BUZZER = GPIO_FUNC_SIO /\
  sio_out hw' BUZZER = false /\
  pwm_enabled hw' BUZZER = true /\
  pwm_level hw' BUZZER = duty_c /\
  buzzer_on (apply_command hw' (GpioSetFunction BUZZER GPIO_FUNC_PWM)) =
    (0 <? duty_c) /\
  pin_func hw' q = pin_func hw q /\
  sio_out hw' q = sio_out hw q.
Proof.
  intros Hq _. cbn.
  rewrite !upd_other by exact Hq.
  unfold buzzer_on. cbn.
  repeat split; reflexivity.
Qed.

Lemma disable_pwm_after_set_pwm_pin_witness :
  LED_R <> BUZZER /\
  0 <= 300 <= 10000 /\
  buzzer_on (replay pins_reset
               (issued (set_pwm_pin BUZZER 300 300 ;; disable_pwm BUZZER)))
    = false /\
  pwm_enabled (replay pins_reset
                 (issued (set_pwm_pin BUZZER 300 300 ;; disable_pwm BUZZER)))
    BUZZER = true.
Proof.
  assert (H : LED_R <> BUZZER) by (unfold LED_R, BUZZER; lia).
  assert (D : 0 <= 300 <= 10000) by lia.
  split; [exact H |]. split; [exact D |].
  destruct (disable_pwm_after_set_pwm_pin pins_reset 300 300 LED_R H D)
    as (B & _ & _ & E & _).
  split; [exact B | exact E].
Defined.

(** X2.  After [set_pwm_pin] on the buzzer pin with a duty cycle in the
    documented range 0-10000 (which the 16-bit level register holds
    unchanged), the buzzer carries a signal exactly when the duty cycle
    is not zero, whatever the pins held before (in particular after a
    [disable_pwm]); the output latches of all pins are left alone. *)
Theorem set_pwm_pin_buzzer (hw : pins) (freq duty_c q : Z) :
  0 <= duty_c <= 10000 ->
  let hw' := replay hw (issued (set_pwm_pin BUZZER freq duty_c)) in
  buzzer_on hw' = (0 <? duty_c) /\
  buzzer_on (replay hw (issued (disable_pwm BUZZER ;;
                                set_pwm_pin BUZZER freq duty_c)))
    = (0 <? duty_c) /\
  sio_out hw' q = sio_out hw q.
Proof.
  intros _. cbn. unfold buzzer_on. cbn.
  repeat split; reflexivity.
Qed.

Lemma set_pwm_pin_buzzer_witness :
  (0 <= 300 <= 10000 /\
   buzzer_on (replay pins_reset (issued (set_pwm_pin BUZZER 300 300))) = true) /\
  (0 <= 0 <= 10000 /\
   buzzer_on (replay pins_reset (issued (set_pwm_pin BUZZER 300 0))) = false).
Proof.
  split.
  - assert (H : 0 <= 300 <= 10000) by lia. split; [exact H |].
    exact (proj1 (set_pwm_pin_buzzer pins_reset 300 300 0 H)).
  - assert (H : 0 <= 0 <= 10000) by lia. split; [exact H |].
    exact (proj1 (set_pwm_pin_buzzer pins_reset 300 0 0 H)).
Defined.

Lemma clkdiv_denominator_zero_iff (freq : Z) :
  clkdiv_denominator freq = 0 <-> freq mod 2 ^ 28 = 0.
Proof.
  unfold clkdiv_denominator.
  rewrite !Z.mod_divide by lia. split.
  - intros [c Hc].
    apply (Z.gauss _ 625); [| reflexivity].
    exists c. change (2 ^ 32) with (16 * 2 ^ 28) in Hc. lia.
  - intros [c Hc]. exists (c * 625). subst freq.
    change (2 ^ 32) with (16 * 2 ^ 28). lia.
Qed.

(** X3.  The divisor [freq * 10000] of the clock divider is computed in
    32-bit unsigned arithmetic.  For an [unsigned int] frequency it is
    the exact product precisely up to 429496 Hz and wraps above that; it
    is zero, so that the division has a zero divisor, precisely when the
    frequency is a multiple of 2^28 (0 Hz included). *)
Theorem clkdiv_denominator_range (freq : Z) :
  0 <= freq <= UINT_MAX ->
  (clkdiv_denominator freq = freq * 10000 <-> freq <= 429496) /\
  (clkdiv_denominator freq = 0 <-> freq mod 2 ^ 28 = 0).
Proof.
  intros Hf. split; [| apply clkdiv_denominator_zero_iff].
  unfold clkdiv_denominator. split.
  - intros H.
    assert (B : 0 <= (freq * 10000) mod 2 ^ 32 < 2 ^ 32)
      by (apply Z.mod_pos_bound; lia).
    rewrite H in B. change (2 ^ 32) with 4294967296 in B. lia.
  - intros H. apply Z.mod_small.
    change (2 ^ 32) with 4294967296. lia.
Qed.

Lemma clkdiv_denominator_range_witness :
  0 <= 300 <= UINT_MAX /\
  clkdiv_denominator 300 = 3000000 /\
  clkdiv_denominator 429497 = 2704 /\
  clkdiv_denominator 0 = 0.
Proof.
  assert (H : 0 <= 300 <= UINT_MAX) by (unfold UINT_MAX; lia).
  split; [exact H |].
  split; [| split; reflexivity].
  apply (proj2 (proj1 (clkdiv_denominator_range 300 H))). lia.
Defined.

(** ** [configurar_hardware] *)

Lemma mem_pin_false (q : Z) (ps : list Z) :
  mem_pin q ps = false -> forall p, In p ps -> q <> p.
Proof.
  unfold mem_pin. intros H p Hp ->.
  assert (C : existsb (Z.eqb p) ps = true)
    by (apply existsb_exists; exists p; split; [exact Hp | apply Z.eqb_refl]).
  congruence.
Qed.

(** X4.  Whatever the pins hold at power-on, [configurar_hardware] leaves
    the three indicator channels and the buzzer pin under SIO with their
    latches low (indicator dark, buzzer silent) and the two bus pins
    under I2C; it changes no PWM slice, and no pin other than these six. *)
Theorem configurar_hardware_effect (hw : pins) (q : Z) :
  mem_pin q configured_pins = false ->
  let hw' := replay hw (issued configurar_hardware) in
  indicator hw' = (false, false, false) /\
  buzzer_on hw' = false /\
  pin_func hw' LED_R = GPIO_FUNC_SIO /\
  pin_func hw' LED_G = GPIO_FUNC_SIO /\
  pin_func hw' LED_B = GPIO_FUNC_SIO /\
  pin_func hw' BUZZER = GPIO_FUNC_SIO /\
  pin_func hw' PIN_SDA = GPIO_FUNC_I2C /\
  pin_func hw' PIN_SCL = GPIO_FUNC_I2C /\
  pwm_enabled hw' = pwm_enabled hw /\
  pwm_level hw' = pwm_level hw /\
  pin_func hw' q = pin_func hw q /\
  sio_out hw' q = sio_out hw q.
Proof.
  intros Hq. pose proof (mem_pin_false q _ Hq) as N.
  assert (NR : q <> LED_R) by (apply N; cbn; tauto).
  assert (NG : q <> LED_G) by (apply N; cbn; tauto).
  assert (NB : q <> LED_B) by (apply N; cbn; tauto).
  assert (NZ : q <> BUZZER) by (apply N; cbn; tauto).
  assert (ND : q <> PIN_SDA) by (apply N; cbn; tauto).
  assert (NC : q <> PIN_SCL) by (apply N; cbn; tauto).
  cbn zeta.
  repeat split; try reflexivity;
    cbn; rewrite ?upd_other by assumption; reflexivity.
Qed.

Lemma configurar_hardware_effect_witness :
  mem_pin 0 configured_pins = false /\
  indicator (replay pins_reset (issued configurar_hardware))
    = (false, false, false) /\
  buzzer_on (replay pins_reset (issued configurar_hardware)) = false.
Proof.
  assert (H : mem_pin 0 configured_pins = false) by reflexivity.
  split; [exact H |].
  destruct (configurar_hardware_effect pins_reset 0 H) as (I & B & _).
  split; [exact I | exact B].
Defined.

(** ** [main]: the log as boot followed by the run *)

Lemma main_world_log (k : nat) :
  log (main_world k) = boot_commands ++ run_commands k.
Proof.
  induction k as [| k IH].
  - cbn [main_world run_commands]. rewrite controlar_semaforo_log. reflexivity.
  - cbn [main_world run_commands].
    rewrite loop_iteration_log, IH, app_assoc. reflexivity.
Qed.

(** ** A corrupted [estado] *)

Lemma after_calls_default (e : Z) (l : list command) (n : nat) :
  e <> 0 -> e <> 1 -> e <> 2 ->
  after_calls n (mkWorld e l) = mkWorld e l.
Proof.
  intros H0 H1 H2. induction n as [| n IH]; [reflexivity |].
  rewrite after_calls_S, IH. unfold exec.
  rewrite controlar_semaforo_default by assumption. reflexivity.
Qed.

Lemma concat_repeat_comm {A} (x : list A) (n : nat) :
  concat (repeat x n) ++ x = x ++ concat (repeat x n).
Proof.
  induction n as [| n IH]; cbn [repeat concat].
  - rewrite app_nil_r. reflexivity.
  - rewrite <- app_assoc, IH. reflexivity.
Qed.

(** X5.  Were [estado] ever outside {0, 1, 2}, the controller would stay
    there for good: every call returns [false], issues no command and
    leaves [estado] as it is; [main], which discards the returned value,
    keeps looping and only prints the status line and waits. *)
Theorem invalid_estado_is_stuck (e : Z) (l : list command) (n : nat) :
  e <> 0 -> e <> 1 -> e <> 2 ->
  after_calls n (mkWorld e l) = mkWorld e l /\
  result controlar_semaforo (after_calls n (mkWorld e l)) = false /\
  Nat.iter n loop_iteration (mkWorld e l) =
    mkWorld e (l ++ concat (repeat [Printf e; SleepMs 1000] n)).
Proof.
  intros H0 H1 H2. split; [apply after_calls_default; assumption |].
  split.
  - rewrite after_calls_default by assumption. unfold result.
    rewrite controlar_semaforo_default by assumption. reflexivity.
  - induction n as [| n IH].
    + cbn. rewrite app_nil_r. reflexivity.
    + rewrite Nat.iter_succ, IH. cbn [repeat concat].
      unfold loop_iteration, exec.
      rewrite controlar_semaforo_default by assumption.
      cbn. f_equal.
      rewrite <- !app_assoc. f_equal.
      apply (concat_repeat_comm [Printf e; SleepMs 1000]).
Qed.

Lemma invalid_estado_is_stuck_witness :
  (3 <> 0 /\ 3 <> 1 /\ 3 <> 2) /\
  after_calls 4 (mkWorld 3 []) = mkWorld 3 [] /\
  Nat.iter 2 loop_iteration (mkWorld 3 []) =
    mkWorld 3 [Printf 3; SleepMs 1000; Printf 3; SleepMs 1000].
Proof.
  assert (H0 : 3 <> 0) by lia.
  assert (H1 : 3 <> 1) by lia.
  assert (H2 : 3 <> 2) by lia.
  split; [repeat split; assumption |].
  split.
  - exact (proj1 (invalid_estado_is_stuck 3 [] 4 H0 H1 H2)).
  - exact (proj2 (proj2 (invalid_estado_is_stuck 3 [] 2 H0 H1 H2))).
Defined.

(** ** Digits sent to the matrix *)

Lemma rendered_app (a b : list command) :
  rendered (a ++ b) = rendered a ++ rendered b.
Proof. unfold rendered. apply flat_map_app. Qed.

Lemma rendered_phase_in_range (e : Z) :
  e = 0 \/ e = 1 \/ e = 2 ->
  forallb digit_in_range (rendered (phase_commands e)) = true.
Proof. intros [-> | [-> | ->]]; reflexivity. Qed.

Lemma rendered_run_in_range (k : nat) :
  forallb digit_in_range (rendered (run_commands k)) = true.
Proof.
  induction k as [| k IH]; [reflexivity |].
  cbn [run_commands]. rewrite rendered_app, forallb_app, IH.
  unfold iteration_commands.
  change (rendered (Printf ?e :: SleepMs 1000 :: ?r)) with (rendered r).
  apply rendered_phase_in_range, main_world_estado_cases.
Qed.

(** X6.  Every digit the running system ever sends to the LED matrix is
    between 1 and 6; the boot sends none. *)
Theorem rendered_digits_in_range (k : nat) :
  rendered boot_commands = [] /\
  forallb digit_in_range (rendered (log (main_world k))) = true.
Proof.
  split; [reflexivity |].
  rewrite main_world_log, rendered_app, forallb_app.
  rewrite rendered_run_in_range. reflexivity.
Qed.

(** ** Waits and renders *)

Lemma count_waits_renders_phase (e : Z) :
  e = 0 \/ e = 1 \/ e = 2 ->
  count is_wait (phase_commands e) = count is_render (phase_commands e).
Proof. intros [-> | [-> | ->]]; reflexivity. Qed.

(** X7.  When the loop test is reached after [k] passes, the number of
    1000 ms waits issued so far is the number of digits rendered plus
    [k]: each countdown second comes with one render, and each pass adds
    one wait of [main]'s own. *)
Theorem waits_are_renders_plus_passes (k : nat) :
  count is_wait (log (main_world k)) =
  (count is_render (log (main_world k)) + k)%nat.
Proof.
  induction k as [| k IH]; [reflexivity |].
  cbn [main_world]. rewrite loop_iteration_log, !count_app, IH.
  unfold iteration_commands.
  change (Printf ?e :: SleepMs 1000 :: ?r) with ([Printf e; SleepMs 1000] ++ r).
  rewrite !count_app.
  rewrite count_waits_renders_phase by apply main_world_estado_cases.
  cbn. lia.
Qed.

(** ** What the matrix shows *)

Lemma matrix_fold_from (cs : list command) (m : option command) :
  fold_left matrix_step cs m =
  match last_matrix_command cs with
  | Some x => Some x
  | None => m
  end.
Proof.
  unfold last_matrix_command. revert m.
  induction cs as [| c cs IH]; intros m; [reflexivity |].
  cbn [fold_left]. rewrite (IH (matrix_step m c)), (IH (matrix_step None c)).
  destruct (fold_left matrix_step cs None); [reflexivity |].
  destruct c; reflexivity.
Qed.

Lemma last_matrix_command_app (a b : list command) :
  last_matrix_command (a ++ b) =
  match last_matrix_command b with
  | Some x => Some x
  | None => last_matrix_command a
  end.
Proof.
  unfold last_matrix_command at 1. rewrite fold_left_app.
  apply matrix_fold_from.
Qed.

Lemma ticks_S (n : nat) :
  ticks (digits_down (S n)) =
  PrintNum (Z.of_nat (S n)) :: SleepMs 1000 :: ticks (digits_down n).
Proof. reflexivity. Qed.

Lemma ticks_wait_shows_remaining (n : nat) (pre post : list command) :
  ticks (digits_down n) = pre ++ SleepMs 1000 :: post ->
  last_matrix_command pre =
    Some (PrintNum (Z.of_nat (S (count is_wait post)))) /\
  (count is_wait post < n)%nat.
Proof.
  revert pre post. induction n as [| n IH]; intros pre post H.
  - destruct pre; discriminate H.
  - rewrite ticks_S in H.
    destruct pre as [| a pre]; [discriminate H |].
    injection H as <- H.
    destruct pre as [| b pre].
    + injection H as <-.
      rewrite count_wait_ticks, digits_down_length.
      split; [reflexivity | lia].
    + injection H as <- H.
      destruct (IH pre post H) as [E L].
      split; [| lia].
      match goal with
      | |- last_matrix_command (?a :: ?b :: pre) = _ =>
          change (a :: b :: pre) with ([a; b] ++ pre)
      end.
      rewrite last_matrix_command_app, E. reflexivity.
Qed.

(** X8.  At every wait of a countdown started at a positive [int] [D],
    the last command the matrix received is the render of the number of
    seconds still to wait, this one included: a digit between 1 and [D]
    that equals one plus the number of waits that follow. *)
Theorem countdown_shows_remaining
  (D : Z) (w : world) (pre post : list command) :
  0 < D <= INT_MAX ->
  log (exec (countdown D) w) = log w ++ pre ++ SleepMs 1000 :: post ->
  last_matrix_command pre =
    Some (PrintNum (Z.of_nat (S (count is_wait post)))) /\
  1 <= Z.of_nat (S (count is_wait post)) <= D.
Proof.
  intros HD H. unfold exec in H.
  rewrite countdown_log in H by lia. cbn [snd log] in H.
  apply app_inv_head in H.
  destruct (ticks_wait_shows_remaining _ _ _ H) as [E L].
  split; [exact E | lia].
Qed.

Lemma countdown_shows_remaining_witness :
  0 < 3 <= INT_MAX /\
  log (exec (countdown 3) w0) =
    log w0 ++ [PrintNum 3; SleepMs 1000; PrintNum 2]
    ++ SleepMs 1000 :: [PrintNum 1; SleepMs 1000] /\
  last_matrix_command [PrintNum 3; SleepMs 1000; PrintNum 2] =
    Some (PrintNum 2).
Proof.
  assert (H3 : 0 < 3 <= INT_MAX) by (unfold INT_MAX; lia).
  assert (E : log (exec (countdown 3) w0) =
              log w0 ++ [PrintNum 3; SleepMs 1000; PrintNum 2]
              ++ SleepMs 1000 :: [PrintNum 1; SleepMs 1000])
    by reflexivity.
  split; [exact H3 |]. split; [exact E |].
  exact (proj1 (countdown_shows_remaining 3 w0 _ _ H3 E)).
Defined.

(** X9.  For every [int] start value the countdown loop issues as many
    render-then-wait pairs as the start value is above zero and leaves
    [estado] alone; started at zero or below it issues nothing and
    returns the world as it found it. *)
Theorem countdown_any_start (i : Z) (w : world) :
  - 2 ^ 31 <= i <= INT_MAX ->
  countdown i w =
    (tt, mkWorld (estado w) (log w ++ ticks (digits_down (Z.to_nat i)))) /\
  count is_render (ticks (digits_down (Z.to_nat i))) = Z.to_nat (Z.max 0 i) /\
  count is_wait (ticks (digits_down (Z.to_nat i))) = Z.to_nat (Z.max 0 i) /\
  (if i <=? 0 then countdown i w = (tt, w) else True).
Proof.
  intros Hi.
  assert (R : forall ds, count is_render (ticks ds) = length ds).
  { unfold count. induction ds as [| d ds IH]; cbn; [reflexivity |].
    f_equal. exact IH. }
  destruct (Z.leb_spec i 0) as [Hle | Hgt].
  - rewrite countdown_nonpositive by exact Hle.
    replace (Z.to_nat i) with 0%nat by lia.
    replace (Z.max 0 i) with 0 by lia.
    cbn. rewrite app_nil_r. destruct w; repeat split; reflexivity.
  - rewrite countdown_log by lia.
    rewrite R, count_wait_ticks, digits_down_length.
    replace (Z.max 0 i) with i by lia. repeat split; reflexivity.
Qed.

Lemma countdown_any_start_witness :
  (- 2 ^ 31 <= 0 <= INT_MAX /\ countdown 0 w0 = (tt, w0)) /\
  (- 2 ^ 31 <= -5 <= INT_MAX /\ countdown (-5) w0 = (tt, w0)).
Proof.
  assert (H0 : - 2 ^ 31 <= 0 <= INT_MAX) by (unfold INT_MAX; lia).
  assert (H5 : - 2 ^ 31 <= -5 <= INT_MAX) by (unfold INT_MAX; lia).
  split.
  - split; [exact H0 |].
    exact (proj2 (proj2 (proj2 (countdown_any_start 0 w0 H0)))).
  - split; [exact H5 |].
    exact (proj2 (proj2 (proj2 (countdown_any_start (-5) w0 H5)))).
Defined.

(** ** Between two phases *)

Lemma main_world_log_ends (k : nat) :
  exists before,
    log (main_world k) = before ++ phase_commands (Z.of_nat k mod 3) /\
    (k = 0%nat \/
     exists k', k = S k' /\
       before = log (main_world k') ++
                [Printf (estado (main_world k')); SleepMs 1000]).
Proof.
  destruct k as [| k].
  - exists boot_commands. split; [| left; reflexivity].
    rewrite main_world_log. reflexivity.
  - eexists. split; [| right; exists k; split; reflexivity].
    cbn [main_world]. rewrite loop_iteration_log, main_world_estado.
    unfold iteration_commands. rewrite <- app_assoc. reflexivity.
Qed.

Lemma buzzer_at_loop_test (hw0 : pins) (k : nat) :
  buzzer_on (replay hw0 (log (main_world k))) = (Z.of_nat k mod 3 =? GO).
Proof.
  induction k as [| k IH].
  - rewrite main_world_log. cbn [run_commands].
    rewrite replay_app, replay_phase_commands by auto. reflexivity.
  - cbn [main_world]. rewrite loop_iteration_log, main_world_estado.
    unfold iteration_commands.
    change (Printf ?e :: SleepMs 1000 :: ?r) with ([Printf e; SleepMs 1000] ++ r).
    rewrite !replay_app.
    rewrite (replay_passive [_; _]) by reflexivity.
    rewrite replay_phase_commands by apply mod3_cases.
    rewrite <- next_phase_mod3 in *.
    destruct (mod3_cases k) as [E | [E | E]]; rewrite E in *; cbn [next_phase].
    + change (next_phase 0) with 1.
      rewrite buzzer_after_setup_caution, IH. reflexivity.
    + reflexivity.
    + reflexivity.
Qed.

(** X10.  Each time [main] reaches the loop test (after the boot, the
    first call and [k] passes), from any power-on pins: [estado] already
    names the next phase while the indicator still shows the pattern of
    the phase just finished; the buzzer is on exactly when [estado] reads
    STOP, that is, when the finished phase was GO; the matrix was last
    cleared; and the status line and [main]'s own wait change none of
    the pins. *)
Theorem between_phases (hw0 : pins) (k : nat) :
  let w := main_world k in
  let hw := replay hw0 (log w) in
  estado w = next_phase (Z.of_nat k mod 3) /\
  indicator hw = indicator_pattern (Z.of_nat k mod 3) /\
  buzzer_on hw = (estado w =? STOP) /\
  last_matrix_command (log w) = Some ClearLeds /\
  replay hw0 (log w ++ [Printf (estado w); SleepMs 1000]) = hw.
Proof.
  cbn zeta.
  destruct (main_world_log_ends k) as (before & E & _).
  repeat split.
  - rewrite main_world_estado. symmetry. apply next_phase_mod3.
  - rewrite E, replay_app, replay_phase_commands by apply mod3_cases.
    apply indicator_after_setup, mod3_cases.
  - rewrite buzzer_at_loop_test, main_world_estado, <- next_phase_mod3.
    destruct (mod3_cases k) as [-> | [-> | ->]]; reflexivity.
  - rewrite E, last_matrix_command_app.
    destruct (mod3_cases k) as [-> | [-> | ->]]; reflexivity.
  - rewrite replay_app. apply replay_passive. reflexivity.
Qed.

(** ** Pins the run addresses *)

Lemma run_commands_address_outputs (k : nat) :
  forallb addresses_output_pin (run_commands k) = true.
Proof.
  induction k as [| k IH]; [reflexivity |].
  cbn [run_commands]. rewrite forallb_app, IH.
  unfold iteration_commands. cbn [forallb andb].
  destruct (main_world_estado_cases k) as [-> | [-> | ->]]; reflexivity.
Qed.

Lemma replay_other_pins (cs : list command) (hw : pins) (q : Z) :
  mem_pin q [LED_R; LED_G; LED_B; BUZZER] = false ->
  forallb addresses_output_pin cs = true ->
  pin_func (replay hw cs) q = pin_func hw q /\
  sio_out (replay hw cs) q = sio_out hw q /\
  pwm_enabled (replay hw cs) q = pwm_enabled hw q /\
  pwm_level (replay hw cs) q = pwm_level hw q.
Proof.
  intros Hq. revert hw.
  induction cs as [| c cs IH]; intros hw H; [cbn; auto |].
  cbn [forallb] in H. apply andb_prop in H as [Hc Hcs].
  cbn [replay fold_left]. fold (replay (apply_command hw c) cs).
  destruct (IH (apply_command hw c) Hcs) as (F & S & E & L).
  rewrite F, S, E, L. clear IH F S E L Hcs.
  assert (N : forall p, mem_pin p [LED_R; LED_G; LED_B; BUZZER] = true ->
                        q <> p) by (intros p Hp ->; congruence).
  unfold addresses_output_pin in Hc.
  destruct c; cbn [command_pin] in Hc; cbn [apply_command];
    cbn [pin_func sio_out pwm_enabled pwm_level];
    rewrite ?upd_other by (apply N; exact Hc); auto.
Qed.

(** X11.  After the boot the program addresses no pin other than the
    three indicator pins and the buzzer pin; in particular the two I2C
    bus pins keep their I2C function in every state of the run, from any
    power-on pins. *)
Theorem bus_pins_stay_i2c (hw0 : pins) (k j : nat) :
  forallb addresses_output_pin (run_commands k) = true /\
  (let hw := replay hw0 (boot_commands ++ firstn j (run_commands k)) in
   pin_func hw PIN_SDA = GPIO_FUNC_I2C /\
   pin_func hw PIN_SCL = GPIO_FUNC_I2C).
Proof.
  split; [apply run_commands_address_outputs |]. cbn zeta.
  rewrite replay_app.
  assert (H : forallb addresses_output_pin (firstn j (run_commands k)) = true)
    by (apply forallb_firstn, run_commands_address_outputs).
  destruct (replay_other_pins _ (replay hw0 boot_commands) PIN_SDA
              eq_refl H) as (FD & _).
  destruct (replay_other_pins _ (replay hw0 boot_commands) PIN_SCL
              eq_refl H) as (FC & _).
  rewrite FD, FC. split; reflexivity.
Qed.

Lemma run_commands_keep_blue_low (k : nat) :
  forallb keeps_blue_low (run_commands k) = true.
Proof.
  induction k as [| k IH]; [reflexivity |].
  cbn [run_commands]. rewrite forallb_app, IH.
  unfold iteration_commands. cbn [forallb andb].
  apply phase_commands_keep_blue_low, main_world_estado_cases.
Qed.

(** X12.  From any power-on pins, once the boot has run the blue channel
    is low, and it stays low in every state of the run. *)
Theorem blue_low_after_boot (hw0 : pins) (k j : nat) :
  sio_out (replay hw0 (boot_commands ++ firstn j (run_commands k))) LED_B
  = false.
Proof.
  rewrite replay_app. apply replay_keeps_blue_low; [| reflexivity].
  apply forallb_firstn, run_commands_keep_blue_low.
Qed.

(** ** Nothing is used before it is brought up *)

Lemma protocol_run_app (r : readiness) (a b : list command) :
  protocol_run r (a ++ b) =
  match protocol_run r a with
  | Some r' => protocol_run r' b
  | None => None
  end.
Proof.
  revert r. induction a as [| c a IH]; intros r; [reflexivity |].
  cbn [app protocol_run]. destruct (protocol_step r c); [apply IH | reflexivity].
Qed.

Lemma protocol_run_boot :
  protocol_run nothing_ready boot_commands = Some booted.
Proof. reflexivity. Qed.

Lemma protocol_run_phase (e : Z) :
  e = 0 \/ e = 1 \/ e = 2 ->
  protocol_run booted (phase_commands e) = Some booted.
Proof. intros [-> | [-> | ->]]; reflexivity. Qed.

Lemma protocol_run_run (k : nat) :
  protocol_run booted (run_commands k) = Some booted.
Proof.
  induction k as [| k IH]; [reflexivity |].
  cbn [run_commands]. rewrite protocol_run_app, IH.
  unfold iteration_commands.
  change (protocol_run booted (Printf ?e :: SleepMs 1000 :: ?r))
    with (protocol_run booted r).
  apply protocol_run_phase, main_world_estado_cases.
Qed.

Lemma run_commands_start (k : nat) :
  exists rest, run_commands k = phase_commands 0 ++ rest.
Proof.
  induction k as [| k (rest & E)].
  - exists []. cbn [run_commands]. rewrite app_nil_r. reflexivity.
  - eexists. cbn [run_commands]. rewrite E, <- app_assoc. reflexivity.
Qed.

(** X13.  In the log of the running system nothing is used before it is
    brought up (the order of use above holds of the whole log), and the
    run after the boot brings up nothing new; without the boot in front,
    the very same run breaks the order. *)
Theorem peripherals_ready_before_use (k : nat) :
  protocol_run nothing_ready (log (main_world k)) = Some booted /\
  protocol_run nothing_ready (run_commands k) = None.
Proof.
  split.
  - rewrite main_world_log, protocol_run_app, protocol_run_boot.
    apply protocol_run_run.
  - destruct (run_commands_start k) as (rest & ->).
    rewrite protocol_run_app. reflexivity.
Qed.

